(** * Secret Santa as a binary optimisation problem

    A shallow embedding of [secret-santa.ipynb]: the term builder
    [build_terms], the hard-coded three-person term list [terms] and the
    result printer [print_results], together with the objective
    [Minimize: sum_k c_k * prod_i x_i] that the notebook states for its
    terms.

    Conventions.
    - Variable indices are Python [int]s: [Z].
    - Coefficients are the float literals [1.0], [2.0] and [-2.0] of the
      notebook.  They are integral and every sum formed from them over
      values 0/1 is exact, so they are carried as [Z].
    - A configuration returned by the solver is a Python [dict] with string
      keys and integer values, iterated in insertion order: an association
      list.  What is proved of every association list holds of those without
      repeated keys.
    - [print] appends a line to the standard output, which is threaded
      explicitly; a raised exception stops the function and leaves what was
      printed so far. *)

From Stdlib Require Import ZArith Lia.
From stdpp Require Import list strings gmap pretty.

Open Scope Z_scope.

(** ** Exceptions *)

(** [KeyError] is the one exception the notebook's own code can raise.  The
    other two are the error kinds the specification names for a local
    solver. *)
Inductive exn :=
  | KeyError (key : string)
  | InvalidConfigurationError
  | InconsistentSolutionError.

#[global] Instance exn_eq_dec : EqDecision exn.
Proof. solve_decision. Defined.

(** ** Terms and the term builder *)

(** [Term(c = ..., indices = [...])]: a weighted monomial. *)
Record Term := mkTerm { c : Z; indices : list Z }.

#[global] Instance Term_eq_dec : EqDecision Term.
Proof. solve_decision. Defined.

(** [build_terms(i, j)]: the six appends, in the order of the source. *)
Definition build_terms (i j : Z) : list Term :=
  let terms := [] in
  let terms := terms ++ [mkTerm 1 [i; i]] in
  let terms := terms ++ [mkTerm 1 [j; j]] in
  let terms := terms ++ [mkTerm 2 [i; j]] in
  let terms := terms ++ [mkTerm (-2) [i]] in
  let terms := terms ++ [mkTerm (-2) [j]] in
  let terms := terms ++ [mkTerm 1 []] in
  terms.

(** The first binding of [terms]: rows 0, 1 and 2 of the matrix.  Python's
    [+] on lists associates to the left. *)
Definition row_terms : list Term :=
  (build_terms 0 1 ++ build_terms 2 3) ++ build_terms 4 5.

(** The second binding of [terms]: the rows followed by columns 0, 1, 2. *)
Definition terms : list Term :=
  ((row_terms ++ build_terms 2 4) ++ build_terms 0 5) ++ build_terms 1 3.

(** The [build_terms] calls behind [terms], one group per call. *)
Definition row_groups : list (list Term) :=
  [build_terms 0 1; build_terms 2 3; build_terms 4 5].

Definition column_groups : list (list Term) :=
  [build_terms 2 4; build_terms 0 5; build_terms 1 3].

(** The variables a list of terms mentions, with repetitions. *)
Definition variables (ts : list Term) : list Z := concat (indices <$> ts).

(** In how many of the given groups the variable [v] occurs. *)
Definition groups_with (v : Z) (groups : list (list Term)) : nat :=
  length (filter (λ g, v ∈ variables g) groups).

(** ** Assignments and the objective *)

(** An assignment is a bit vector: position [v] holds the value of the
    variable [v]. *)
Abbreviation Assignment := (list Z).

Definition binary (a : Assignment) : Prop := Forall (λ x, x = 0 ∨ x = 1) a.

(** The value of variable [i]; no value outside [0, length a). *)
Definition value_at (a : Assignment) (i : Z) : option Z :=
  if decide (0 ≤ i) then a !! Z.to_nat i else None.

(** Modelled from the spec: the operation [evaluate] of the Objective
    Evaluator, which the notebook leaves to the remote solver.  It walks the
    terms with a running total; for each term it walks the indices with a
    running product that starts at 1. *)
Fixpoint product_from (a : Assignment) (idx : list Z) (prod : Z) : option Z :=
  match idx with
  | [] => Some prod
  | i :: rest => x ← value_at a i; product_from a rest (prod * x)
  end.

(** Modelled from the spec: the contribution of one term to [evaluate],
    coefficient times the product of the values at its indices. *)
Definition contribution (a : Assignment) (t : Term) : option Z :=
  p ← product_from a (indices t) 1; Some (c t * p).

(** Modelled from the spec: the loop of [evaluate] over the terms, with the
    running total. *)
Fixpoint evaluate_from (ts : list Term) (a : Assignment) (total : Z) : option Z :=
  match ts with
  | [] => Some total
  | t :: rest => v ← contribution a t; evaluate_from rest a (total + v)
  end.

(** Modelled from the spec: [evaluate(terms, assignment)], absent from the
    notebook; [None] when a term mentions a variable without a value. *)
Definition evaluate (ts : list Term) (a : Assignment) : option Z :=
  evaluate_from ts a 0.

(** The objective as the notebook writes it, [sum_k c_k * prod_i x_i], for an
    assignment that gives every mentioned variable a value. *)
Definition x_ (a : Assignment) (i : Z) : Z := default 0 (value_at a i).

Definition monomial (a : Assignment) (t : Term) : Z :=
  c t * foldr (λ i p, x_ a i * p) 1 (indices t).

Definition objective (ts : list Term) (a : Assignment) : Z :=
  foldr (λ t s, monomial a t + s) 0 ts.

(** Every index of every term has a value in [a]. *)
Definition covers (a : Assignment) (ts : list Term) : Prop :=
  Forall (λ t, Forall (λ i, 0 ≤ i < Z.of_nat (length a)) (indices t)) ts.

(** ** The constraints of the three-person instance *)

(** [x_i (+) x_j] of the notebook's truth table: one or the other is one,
    but not both. *)
Definition xor_var (a : Assignment) (i j : Z) : Prop :=
  (x_ a i = 1 ∧ x_ a j = 0) ∨ (x_ a i = 0 ∧ x_ a j = 1).

(** The conjunction of exclusive-ors stated for the problem. *)
Definition xor_constraints (a : Assignment) : Prop :=
  xor_var a 0 1 ∧ xor_var a 2 3 ∧ xor_var a 4 5 ∧
  xor_var a 2 4 ∧ xor_var a 0 5 ∧ xor_var a 1 3.

Inductive person := Vincent | Tess | Uma.

#[global] Instance person_eq_dec : EqDecision person.
Proof. solve_decision. Defined.

(** The secret santa matrix of the source: [x(v)] stands at row giver,
    column receiver. *)
Definition matrix : list (Z * (person * person)) :=
  [ (0, (Vincent, Tess)); (1, (Vincent, Uma));
    (2, (Tess, Vincent)); (3, (Tess, Uma));
    (4, (Uma, Vincent)); (5, (Uma, Tess)) ].

(** The (giver, receiver) pairs whose variable is set to 1. *)
Definition chosen (a : Assignment) : list (person * person) :=
  (filter (λ e, value_at a e.1 = Some 1) matrix).*2.

Definition gifts_given (a : Assignment) (p : person) : nat :=
  length (filter (λ e, e.1 = p) (chosen a)).

Definition gifts_received (a : Assignment) (p : person) : nat :=
  length (filter (λ e, e.2 = p) (chosen a)).

(** Each person gives exactly one gift and receives exactly one gift. *)
Definition one_hot_constraints (a : Assignment) : Prop :=
  ∀ p : person, gifts_given a p = 1%nat ∧ gifts_received a p = 1%nat.

(** ** The result printer *)

(** The dictionary [result] of [print_results]. *)
Definition result : gmap string string :=
  list_to_map
    [ ("0", "Vincent buys Tess a gift and writes her a poem.");
      ("1", "Vincent buys Uma a gift and writes her a poem.");
      ("2", "Tess buys Vincent a gift and writes him a poem.");
      ("3", "Tess buys Uma a gift and writes her a poem.");
      ("4", "Uma buys Vincent a gift and writes him a poem.");
      ("5", "Uma buys Tess a gift and writes her a poem.") ].

(** The loop of [print_results] over [config.items()], with the lines
    printed so far. *)
Fixpoint print_results_loop (items : list (string * Z)) (out : list string)
  : list string * option exn :=
  match items with
  | [] => (out, None)
  | (key, val) :: rest =>
      if decide (val = 1) then
        match result !! key with
        | Some line => print_results_loop rest (out ++ [line])
        | None => (out, Some (KeyError key))
        end
      else print_results_loop rest out
  end.

(** [print_results(config)]: the printed lines, and the exception if one was
    raised. *)
Definition print_results (config : list (string * Z)) : list string * option exn :=
  print_results_loop config [].

(** The configuration the solver returns for an assignment: variable [v]
    under the key [str(v)]. *)
Definition configuration (a : Assignment) : list (string * Z) :=
  imap (λ v x, (pretty v, x)) a.

(** ** The local solver of the specification *)

(** Modelled from the spec: the operation [build_problem] of the Problem
    Builder, for which the notebook has only the unrolled three-person
    instance.  Variables number the ordered (giver, receiver) pairs with
    giver <> receiver row by row; every row and every column is constrained
    by the full expansion of [(sum_k x_k - 1)^2]. *)
Definition pairs (n : nat) : list (nat * nat) :=
  g ← seq 0 n; r ← seq 0 n; if decide (g = r) then [] else [(g, r)].

(** Modelled from the spec: the Variable-to-(giver, receiver) index map that
    [build_problem] returns. *)
Definition variable_map (n : nat) : list (Z * (nat * nat)) :=
  imap (λ v p, (Z.of_nat v, p)) (pairs n).

(** Modelled from the spec: the row of a giver in the exclusion structure
    of [build_problem]. *)
Definition row (vm : list (Z * (nat * nat))) (g : nat) : list Z :=
  (filter (λ e, e.2.1 = g) vm).*1.

(** Modelled from the spec: the column of a receiver, as [row]. *)
Definition column (vm : list (Z * (nat * nat))) (r : nat) : list Z :=
  (filter (λ e, e.2.2 = r) vm).*1.

(** Modelled from the spec: the pairwise quadratic cross terms of a row or
    column, part of [build_problem]. *)
Fixpoint cross_terms (vs : list Z) : list Term :=
  match vs with
  | [] => []
  | v :: rest => ((λ w, mkTerm 2 [v; w]) <$> rest) ++ cross_terms rest
  end.

(** Modelled from the spec: the one-hot penalty [(sum_k x_k - 1)^2] of a row
    or column in full quadratic form, part of [build_problem]; for a pair it
    lists the terms in the order of [build_terms]. *)
Definition one_hot_terms (vs : list Z) : list Term :=
  ((λ v, mkTerm 1 [v; v]) <$> vs) ++ cross_terms vs ++
  ((λ v, mkTerm (-2) [v]) <$> vs) ++ [mkTerm 1 []].

(** Modelled from the spec: [build_problem(num_people)], absent from the
    notebook. *)
Definition build_problem (num_people : Z)
  : exn + (list Term * list (Z * (nat * nat))) :=
  if decide (num_people < 3) then inl InvalidConfigurationError
  else
    let n := Z.to_nat num_people in
    let vm := variable_map n in
    inr (concat (one_hot_terms ∘ row vm <$> seq 0 n) ++
         concat (one_hot_terms ∘ column vm <$> seq 0 n), vm).

(** Modelled from the spec: the pairs [interpret] reports, those whose
    variable is set to 1.  [interpret] makes the check that the notebook's
    [print_results] does not make. *)
Definition selected (a : Assignment) (vm : list (Z * (nat * nat)))
  : list (nat * nat) :=
  (filter (λ e, value_at a e.1 = Some 1) vm).*2.

(** Modelled from the spec: the one-hot check of [interpret], every person
    once a giver and once a receiver. *)
Definition consistent (n : nat) (sel : list (nat * nat)) : Prop :=
  Forall (λ p, length (filter (λ e, e.1 = p) sel) = 1%nat ∧
               length (filter (λ e, e.2 = p) sel) = 1%nat) (seq 0 n).

(** Modelled from the spec: [interpret(assignment, variable_map, names)],
    absent from the notebook. *)
Definition interpret (a : Assignment) (vm : list (Z * (nat * nat)))
    (names : list string) : exn + list string :=
  let sel := selected a vm in
  if decide (consistent (length names) sel) then
    inr ((λ e, (names !!! e.1) +:+ " buys " +:+ (names !!! e.2) +:+ " a gift.")
           <$> sel)
  else inl InconsistentSolutionError.

(** Modelled from the spec: the configuration of [solve].  The Optimizer is
    a parameter of [solve]; what it reports to the progress sink is returned
    next to the outcome, so that a run in which no search took place is one
    that reported nothing. *)
Record Config := mkConfig {
  max_iterations : Z;
  time_budget_seconds : Z;
  restarts : Z;
  seed : Z
}.

(** Modelled from the spec: a progress record for the reporting sink of
    [solve]. *)
Record Progress := mkProgress { iteration : Z; best_cost : Z }.

(** Modelled from the spec: what [solve] returns. *)
Record Solution := mkSolution {
  assignment : Assignment;
  cost : Z;
  readable_lines : list string
}.

Section Solve.

Variable optimizer : list Term → nat → Config → list Progress * (Assignment * Z).

(** Modelled from the spec: [solve(num_people, names, config)], absent from
    the notebook. *)
Definition solve (num_people : Z) (names : list string) (config : Config)
  : list Progress * (exn + Solution) :=
  if decide (num_people < 3 ∨ max_iterations config ≤ 0) then
    ([], inl InvalidConfigurationError)
  else
    match build_problem num_people with
    | inl e => ([], inl e)
    | inr (ts, vm) =>
        let '(events, (a, k)) := optimizer ts (length vm) config in
        match interpret a vm names with
        | inl e => (events, inl e)
        | inr lines => (events, inr (mkSolution a k lines))
        end
    end.

End Solve.

(** A stand-in optimizer for trying [solve]: it reports once and returns the
    assignment it was given, with its cost. *)
Definition constant_optimizer (a : Assignment) (ts : list Term) (n : nat)
    (config : Config) : list Progress * (Assignment * Z) :=
  let k := default 0 (evaluate ts a) in
  ([mkProgress 0 k], (a, k)).

(** ** The display cell *)

(** The last cell of the notebook: [print('Human-readable solution:')], then
    [print_results(result['configuration'])] for the dict that the solver
    returned.  Of that dict only the entry under ['configuration'] is read,
    so it is carried as a map from keys to configurations.  The subscript is
    evaluated after the heading was printed; a missing key raises [KeyError]
    there. *)
Definition display (solver_result : gmap string (list (string * Z)))
  : list string * option exn :=
  let out := ["Human-readable solution:"] in
  match solver_result !! "configuration" with
  | Some config =>
      let '(lines, e) := print_results config in (out ++ lines, e)
  | None => (out, Some (KeyError "configuration"))
  end.

(** The assignment with every bit flipped, for stating a symmetry of the
    penalty. *)
Definition complement (a : Assignment) : Assignment := (λ x, 1 - x) <$> a.

(** * Properties *)

(** C1: [build_terms i j] returns exactly six terms, in this order:
    coefficient 1 on (i,i), 1 on (j,j), 2 on (i,j), -2 on (i), -2 on (j) and
    1 on the empty index sequence. *)
Theorem build_terms_six (i j : Z) :
  build_terms i j =
    [ mkTerm 1 [i; i]; mkTerm 1 [j; j]; mkTerm 2 [i; j];
      mkTerm (-2) [i]; mkTerm (-2) [j]; mkTerm 1 [] ]
  ∧ length (build_terms i j) = 6%nat.
Proof. split; reflexivity. Qed.

(** ** The evaluator *)

Lemma value_at_x_ (a : Assignment) (i x : Z) :
  value_at a i = Some x → x_ a i = x.
Proof. unfold x_. by intros ->. Qed.

Lemma value_at_covered (a : Assignment) (i : Z) :
  0 ≤ i < Z.of_nat (length a) → value_at a i = Some (x_ a i).
Proof.
  intros [Hlo Hhi]. unfold x_, value_at. rewrite decide_True by done.
  destruct (lookup_lt_is_Some_2 a (Z.to_nat i)) as [x Hx]; [lia|].
  by rewrite Hx.
Qed.

Lemma value_at_binary (a : Assignment) (i x : Z) :
  binary a → value_at a i = Some x → x = 0 ∨ x = 1.
Proof.
  unfold value_at, binary. intros Ha Hx. case_decide; [|done].
  eapply Forall_lookup_1 in Ha; [exact Ha|exact Hx].
Qed.

Lemma product_from_Some (a : Assignment) (idx : list Z) (p q : Z) :
  product_from a idx p = Some q →
  q = p * foldr (λ i r, x_ a i * r) 1 idx.
Proof.
  revert p. induction idx as [|i idx IH]; intros p; simpl.
  - intros [= <-]. lia.
  - destruct (value_at a i) as [x|] eqn:Hx; simpl; [|done].
    intros Hq. apply IH in Hq. rewrite (value_at_x_ _ _ _ Hx). lia.
Qed.

Lemma product_from_covered (a : Assignment) (idx : list Z) (p : Z) :
  Forall (λ i, 0 ≤ i < Z.of_nat (length a)) idx →
  is_Some (product_from a idx p).
Proof.
  intros Hidx. revert p. induction Hidx as [|i idx Hi _ IH]; intros p; simpl.
  - by eexists.
  - rewrite (value_at_covered _ _ Hi). simpl. apply IH.
Qed.

Lemma contribution_Some (a : Assignment) (t : Term) (v : Z) :
  contribution a t = Some v → v = monomial a t.
Proof.
  unfold contribution, monomial.
  destruct (product_from a (indices t) 1) as [p|] eqn:Hp; simpl; [|done].
  intros [= <-]. apply product_from_Some in Hp. rewrite Hp. lia.
Qed.

Lemma contribution_covered (a : Assignment) (t : Term) :
  Forall (λ i, 0 ≤ i < Z.of_nat (length a)) (indices t) →
  contribution a t = Some (monomial a t).
Proof.
  intros Hidx. destruct (product_from_covered a _ 1 Hidx) as [p Hp].
  pose proof (contribution_Some a t (c t * p)) as Hc.
  unfold contribution in *. rewrite Hp in *. simpl in *. by rewrite <- Hc.
Qed.

Lemma evaluate_from_Some (ts : list Term) (a : Assignment) (total v : Z) :
  evaluate_from ts a total = Some v → v = total + objective ts a.
Proof.
  revert total. induction ts as [|t ts IH]; intros total; simpl.
  - intros [= <-]. lia.
  - destruct (contribution a t) as [w|] eqn:Hw; simpl; [|done].
    intros Hv. apply IH in Hv. apply contribution_Some in Hw. lia.
Qed.

Lemma evaluate_from_covered (ts : list Term) (a : Assignment) (total : Z) :
  covers a ts → evaluate_from ts a total = Some (total + objective ts a).
Proof.
  intros Hts. revert total. induction Hts as [|t ts Ht _ IH]; intros total; simpl.
  - f_equal. lia.
  - rewrite (contribution_covered _ _ Ht). simpl. rewrite IH. f_equal. lia.
Qed.

Lemma evaluate_Some (ts : list Term) (a : Assignment) (v : Z) :
  evaluate ts a = Some v → v = objective ts a.
Proof. intros Hv. apply evaluate_from_Some in Hv. lia. Qed.

Lemma objective_app (ts1 ts2 : list Term) (a : Assignment) :
  objective (ts1 ++ ts2) a = objective ts1 a + objective ts2 a.
Proof. induction ts1 as [|t ts1 IH]; simpl; [done|]. rewrite IH. lia. Qed.

(** The order of the terms is irrelevant to the objective. *)
Lemma objective_Permutation (ts1 ts2 : list Term) (a : Assignment) :
  ts1 ≡ₚ ts2 → objective ts1 a = objective ts2 a.
Proof. induction 1; simpl; lia. Qed.

(** C6: for every term list and every assignment that gives each of its
    variables a value, [evaluate] returns the sum over the terms of the
    coefficient times the product of the values at the term's indices, the
    empty product being 1; and two calls on the same arguments return the
    same value. *)
Theorem evaluate_sum (ts : list Term) (a : Assignment) :
  covers a ts →
  evaluate ts a = Some (objective ts a)
  ∧ (∀ k, contribution a (mkTerm k []) = Some k)
  ∧ (∀ v1 v2, evaluate ts a = Some v1 → evaluate ts a = Some v2 → v1 = v2).
Proof.
  intros Hts. split; [|split].
  - unfold evaluate. by rewrite evaluate_from_covered.
  - intros k. unfold contribution. simpl. f_equal. lia.
  - intros v1 v2 H1 H2. congruence.
Qed.

Lemma evaluate_sum_witness :
  evaluate terms [0; 1; 1; 0; 0; 1] = Some (objective terms [0; 1; 1; 0; 0; 1])
  ∧ (∀ k, contribution [0; 1; 1; 0; 0; 1] (mkTerm k []) = Some k)
  ∧ (∀ v1 v2, evaluate terms [0; 1; 1; 0; 0; 1] = Some v1 →
              evaluate terms [0; 1; 1; 0; 0; 1] = Some v2 → v1 = v2).
Proof.
  refine (evaluate_sum terms [0; 1; 1; 0; 0; 1] _).
  unfold covers. repeat constructor; simpl; lia.
Defined.

(** ** The penalty of one pair *)

Lemma objective_build_terms (i j : Z) (a : Assignment) :
  objective (build_terms i j) a = (x_ a i + x_ a j - 1) ^ 2.
Proof. unfold objective, monomial, build_terms. simpl. ring. Qed.

Lemma evaluate_build_terms (i j : Z) (a : Assignment) (xi xj : Z) :
  value_at a i = Some xi → value_at a j = Some xj →
  evaluate (build_terms i j) a = Some ((xi + xj - 1) ^ 2).
Proof.
  intros Hi Hj. unfold evaluate, build_terms. simpl.
  unfold contribution. simpl. rewrite Hi, Hj. simpl. f_equal. ring.
Qed.

(** C2: the six terms of [build_terms i j] sum to [(x_i + x_j - 1)^2] under
    every assignment that gives [i] and [j] a value; the sum is 0 at (0,1)
    and (1,0), and 1 at (0,0) and (1,1).  Neither [i <> j] nor values in
    0/1 is needed for the identity. *)
Theorem build_terms_square (i j : Z) (a : Assignment) (xi xj : Z) :
  value_at a i = Some xi → value_at a j = Some xj →
  evaluate (build_terms i j) a = Some ((xi + xj - 1) ^ 2)
  ∧ (xi = 0 → xj = 1 → evaluate (build_terms i j) a = Some 0)
  ∧ (xi = 1 → xj = 0 → evaluate (build_terms i j) a = Some 0)
  ∧ (xi = 0 → xj = 0 → evaluate (build_terms i j) a = Some 1)
  ∧ (xi = 1 → xj = 1 → evaluate (build_terms i j) a = Some 1).
Proof.
  intros Hi Hj. rewrite (evaluate_build_terms _ _ _ _ _ Hi Hj).
  repeat split; intros -> ->; reflexivity.
Qed.

Lemma build_terms_square_witness :
  evaluate (build_terms 0 1) [0; 1] = Some ((0 + 1 - 1) ^ 2)
  ∧ (0 = 0 → 1 = 1 → evaluate (build_terms 0 1) [0; 1] = Some 0)
  ∧ (0 = 1 → 1 = 0 → evaluate (build_terms 0 1) [0; 1] = Some 0)
  ∧ (0 = 0 → 1 = 0 → evaluate (build_terms 0 1) [0; 1] = Some 1)
  ∧ (0 = 1 → 1 = 1 → evaluate (build_terms 0 1) [0; 1] = Some 1).
Proof.
  refine (build_terms_square 0 1 [0; 1] 0 1 _ _); reflexivity.
Defined.

(** C9: over a binary assignment a term on (i,i) contributes what the term
    on (i) with the same coefficient contributes; [build_terms] nevertheless
    keeps the squares as they are. *)
Theorem squared_variable (a : Assignment) (k i : Z) :
  binary a →
  contribution a (mkTerm k [i; i]) = contribution a (mkTerm k [i])
  ∧ (∀ j, mkTerm 1 [i; i] ∈ build_terms i j ∧ mkTerm 1 [j; j] ∈ build_terms i j)
  ∧ (∀ j, (mkTerm 1 [i] ∉ build_terms i j) ∧ (mkTerm 1 [j] ∉ build_terms i j)).
Proof.
  intros Ha. split; [|split].
  - unfold contribution. simpl.
    destruct (value_at a i) as [x|] eqn:Hx; simpl; [|done].
    destruct (value_at_binary _ _ _ Ha Hx) as [-> | ->]; reflexivity.
  - intros j. unfold build_terms. simpl. set_solver.
  - intros j. unfold build_terms. simpl.
    split; intros Hin;
      repeat (apply elem_of_cons in Hin as [[=]|Hin]);
      exact (proj1 (elem_of_nil _) Hin).
Qed.

Lemma squared_variable_witness :
  contribution [0; 1] (mkTerm 5 [1; 1]) = contribution [0; 1] (mkTerm 5 [1])
  ∧ (∀ j, mkTerm 1 [1; 1] ∈ build_terms 1 j ∧ mkTerm 1 [j; j] ∈ build_terms 1 j)
  ∧ (∀ j, (mkTerm 1 [1] ∉ build_terms 1 j) ∧ (mkTerm 1 [j] ∉ build_terms 1 j)).
Proof.
  refine (squared_variable [0; 1] 5 1 _).
  unfold binary. repeat constructor; lia.
Defined.

(** ** The three-person term list *)

Lemma terms_groups : terms = concat row_groups ++ concat column_groups.
Proof. reflexivity. Qed.

Lemma objective_terms (a : Assignment) :
  objective terms a =
    (x_ a 0 + x_ a 1 - 1) ^ 2 + (x_ a 2 + x_ a 3 - 1) ^ 2 +
    (x_ a 4 + x_ a 5 - 1) ^ 2 + (x_ a 2 + x_ a 4 - 1) ^ 2 +
    (x_ a 0 + x_ a 5 - 1) ^ 2 + (x_ a 1 + x_ a 3 - 1) ^ 2.
Proof.
  unfold terms, row_terms.
  rewrite !objective_app, !objective_build_terms. reflexivity.
Qed.

Lemma objective_terms_nonneg (a : Assignment) : 0 ≤ objective terms a.
Proof.
  rewrite objective_terms.
  repeat apply Z.add_nonneg_nonneg; apply Z.pow_even_nonneg; by exists 1.
Qed.

Lemma covers_terms (a : Assignment) : length a = 6%nat → covers a terms.
Proof.
  intros Hlen. unfold covers. rewrite Hlen.
  repeat constructor; simpl; lia.
Qed.

Lemma evaluate_terms (a : Assignment) :
  length a = 6%nat → evaluate terms a = Some (objective terms a).
Proof.
  intros Hlen. unfold evaluate.
  by rewrite (evaluate_from_covered _ _ _ (covers_terms _ Hlen)).
Qed.

Lemma binary_x_ (a : Assignment) (i : Z) : binary a → x_ a i = 0 ∨ x_ a i = 1.
Proof.
  intros Ha. unfold x_. destruct (value_at a i) as [x|] eqn:Hx; simpl.
  - by eapply value_at_binary.
  - by left.
Qed.

Lemma square_zero (x y : Z) : (x + y - 1) ^ 2 = 0 ↔ x + y = 1.
Proof.
  split.
  - intros H. apply Z.pow_eq_0_iff in H as [? | [_ H]]; lia.
  - intros ->. reflexivity.
Qed.

(** The objective of [terms] vanishes exactly where every pair sums to 1. *)
Lemma objective_terms_zero (a : Assignment) :
  objective terms a = 0 ↔
  x_ a 0 + x_ a 1 = 1 ∧ x_ a 2 + x_ a 3 = 1 ∧ x_ a 4 + x_ a 5 = 1 ∧
  x_ a 2 + x_ a 4 = 1 ∧ x_ a 0 + x_ a 5 = 1 ∧ x_ a 1 + x_ a 3 = 1.
Proof.
  rewrite objective_terms, <- !square_zero.
  assert (Hsq : ∀ z, 0 ≤ z ^ 2) by (intros z; apply Z.pow_even_nonneg; by exists 1).
  pose proof (Hsq (x_ a 0 + x_ a 1 - 1)).
  pose proof (Hsq (x_ a 2 + x_ a 3 - 1)).
  pose proof (Hsq (x_ a 4 + x_ a 5 - 1)).
  pose proof (Hsq (x_ a 2 + x_ a 4 - 1)).
  pose proof (Hsq (x_ a 0 + x_ a 5 - 1)).
  pose proof (Hsq (x_ a 1 + x_ a 3 - 1)).
  lia.
Qed.

Lemma xor_var_sum (a : Assignment) (i j : Z) :
  binary a → xor_var a i j ↔ x_ a i + x_ a j = 1.
Proof.
  intros Ha. unfold xor_var.
  destruct (binary_x_ a i Ha), (binary_x_ a j Ha); lia.
Qed.

(** C3: the three-person problem uses exactly the six variables 0..5, which
    is 3 * (3 - 1); every binary assignment of the six variables has an
    objective value of at least 0, and some such assignment has value 0. *)
Theorem terms_minimum_zero :
  (∀ v, v ∈ variables terms ↔ 0 ≤ v < 6)
  ∧ length (remove_dups (variables terms)) = 6%nat
  ∧ Z.of_nat (length (remove_dups (variables terms))) = 3 * (3 - 1)
  ∧ (∀ a : Assignment, length a = 6%nat → binary a →
       ∃ v, evaluate terms a = Some v ∧ 0 ≤ v)
  ∧ (∃ a : Assignment, length a = 6%nat ∧ binary a ∧ evaluate terms a = Some 0).
Proof.
  split; [|split; [|split; [|split]]].
  - intros v. split.
    + intros Hv.
      assert (Hall : Forall (λ v, 0 ≤ v < 6) (variables terms))
        by (apply (bool_decide_unpack _); vm_compute; exact I).
      eapply Forall_forall in Hall; [exact Hall|exact Hv].
    + intros Hv.
      assert (v = 0 ∨ v = 1 ∨ v = 2 ∨ v = 3 ∨ v = 4 ∨ v = 5) as Hcases by lia.
      destruct Hcases as [->|[->|[->|[->|[->| ->]]]]];
        apply (bool_decide_unpack _); vm_compute; exact I.
  - vm_compute. reflexivity.
  - vm_compute. reflexivity.
  - intros a Hlen _. exists (objective terms a).
    split; [by apply evaluate_terms | apply objective_terms_nonneg].
  - exists [1; 0; 0; 1; 1; 0]. split; [reflexivity|]. split.
    + unfold binary. repeat constructor; lia.
    + vm_compute. reflexivity.
Qed.

Lemma terms_minimum_zero_witness :
  ∃ v, evaluate terms [0; 1; 0; 1; 0; 0] = Some v ∧ 0 ≤ v.
Proof.
  refine (proj1 (proj2 (proj2 (proj2 terms_minimum_zero)))
            [0; 1; 0; 1; 0; 0] _ _).
  - reflexivity.
  - unfold binary. repeat constructor; lia.
Defined.

(** C4: a binary assignment of the six variables has objective value 0 if
    and only if it satisfies the six exclusive-or constraints of the rows and
    columns; no assignment at all has a value below 0, so a zero-cost
    assignment is a global minimum. *)
Theorem zero_cost_iff_constraints (a : Assignment) :
  length a = 6%nat → binary a →
  (evaluate terms a = Some 0 ↔ xor_constraints a)
  ∧ (evaluate terms a = Some 0 →
     ∀ (a' : Assignment) v', evaluate terms a' = Some v' → 0 ≤ v').
Proof.
  intros Hlen Ha. split.
  - rewrite (evaluate_terms _ Hlen). unfold xor_constraints.
    split.
    + intros [= Hzero]. apply objective_terms_zero in Hzero.
      by rewrite !(xor_var_sum _ _ _ Ha).
    + intros Hxor. rewrite !(xor_var_sum _ _ _ Ha) in Hxor.
      f_equal. by apply objective_terms_zero.
  - intros _ a' v' Hv'. apply evaluate_Some in Hv' as ->.
    apply objective_terms_nonneg.
Qed.

Lemma zero_cost_iff_constraints_witness :
  (evaluate terms [1; 0; 0; 1; 1; 0] = Some 0 ↔ xor_constraints [1; 0; 0; 1; 1; 0])
  ∧ (evaluate terms [1; 0; 0; 1; 1; 0] = Some 0 →
     ∀ (a' : Assignment) v', evaluate terms a' = Some v' → 0 ≤ v').
Proof.
  refine (zero_cost_iff_constraints [1; 0; 0; 1; 1; 0] _ _).
  - reflexivity.
  - unfold binary. repeat constructor; lia.
Defined.

(** C8: each of the variables 0..5 occurs in exactly one of the three row
    calls of [build_terms] and in exactly one of the three column calls. *)
Theorem one_row_one_column (v : Z) :
  0 ≤ v < 6 →
  groups_with v row_groups = 1%nat ∧ groups_with v column_groups = 1%nat.
Proof.
  intros Hv.
  assert (v = 0 ∨ v = 1 ∨ v = 2 ∨ v = 3 ∨ v = 4 ∨ v = 5) as Hcases by lia.
  destruct Hcases as [->|[->|[->|[->|[->| ->]]]]]; split; vm_compute; reflexivity.
Qed.

Lemma one_row_one_column_witness :
  groups_with 3 row_groups = 1%nat ∧ groups_with 3 column_groups = 1%nat.
Proof. refine (one_row_one_column 3 _). lia. Defined.

(** ** The result printer *)

Lemma result_keys (k : string) :
  k ∈ ["0"; "1"; "2"; "3"; "4"; "5"] ↔ is_Some (result !! k).
Proof.
  rewrite <- elem_of_dom.
  assert (dom result = list_to_set ["0"; "1"; "2"; "3"; "4"; "5"]) as ->
    by (vm_compute; reflexivity).
  by rewrite elem_of_list_to_set.
Qed.

(** Over keys of [result] the loop runs to its end and prints, after what
    was printed before, the line of each entry whose value is 1. *)
Lemma print_results_loop_lines (items : list (string * Z)) (out : list string) :
  Forall (λ kv, is_Some (result !! kv.1)) items →
  ∃ lines,
    print_results_loop items out = (out ++ lines, None)
    ∧ Forall2 (λ line kv, result !! kv.1 = Some line)
        lines (filter (λ kv, kv.2 = 1) items).
Proof.
  intros Hitems. revert out.
  induction Hitems as [|[key val] items [line Hline] _ IH]; intros out; simpl.
  - exists []. by rewrite app_nil_r.
  - simpl in Hline. rewrite filter_cons. simpl. case_decide.
    + rewrite Hline. destruct (IH (out ++ [line])) as (lines & -> & Hlines).
      exists (line :: lines). rewrite <- app_assoc. split; [done|].
      by constructor.
    + apply IH.
Qed.

(** An entry with value 1 under a key that [result] lacks stops the loop
    with a [KeyError] for the first such key. *)
Lemma print_results_loop_KeyError (items : list (string * Z))
    (out : list string) (k : string) :
  (k, 1) ∈ items → result !! k = None →
  ∃ lines k',
    print_results_loop items out = (lines, Some (KeyError k'))
    ∧ result !! k' = None ∧ (k', 1) ∈ items.
Proof.
  intros Hin Hk. revert out.
  induction items as [|[key val] items IH]; intros out; simpl.
  - by apply elem_of_nil in Hin.
  - case_decide as Hval.
    + subst val. destruct (result !! key) as [line|] eqn:Hkey.
      * apply elem_of_cons in Hin as [[= <-]|Hin]; [congruence|].
        destruct (IH Hin (out ++ [line])) as (lines & k' & -> & Hk' & Hin').
        exists lines, k'. repeat split; [done|]. by right.
      * exists out, key. repeat split; [done|]. by left.
    + apply elem_of_cons in Hin as [[= <- <-]|Hin]; [done|].
      destruct (IH Hin out) as (lines & k' & -> & Hk' & Hin').
      exists lines, k'. repeat split; [done|]. by right.
Qed.

(** The only exception [print_results] can raise is a [KeyError]. *)
Lemma print_results_loop_exn (items : list (string * Z)) (out : list string)
    (e : exn) :
  (print_results_loop items out).2 = Some e → ∃ k, e = KeyError k.
Proof.
  revert out. induction items as [|[key val] items IH]; intros out; simpl.
  - done.
  - case_decide; [|by apply IH].
    destruct (result !! key); [by apply IH|].
    simpl. intros [= <-]. by eexists.
Qed.

(** C10: over a configuration whose keys are all among '0'..'5',
    [print_results] returns normally and prints, in the order of the
    entries, exactly the line of each entry whose value is 1; an entry with
    value 1 under any other key makes it stop with a [KeyError]. *)
Theorem print_results_lines (config : list (string * Z)) :
  (Forall (λ kv, kv.1 ∈ ["0"; "1"; "2"; "3"; "4"; "5"]) config →
   ∃ lines,
     print_results config = (lines, None)
     ∧ Forall2 (λ line kv, result !! kv.1 = Some line)
         lines (filter (λ kv, kv.2 = 1) config))
  ∧ (∀ k, k ∉ ["0"; "1"; "2"; "3"; "4"; "5"] → (k, 1) ∈ config →
     ∃ lines k',
       print_results config = (lines, Some (KeyError k'))
       ∧ (k' ∉ ["0"; "1"; "2"; "3"; "4"; "5"]) ∧ (k', 1) ∈ config).
Proof.
  split.
  - intros Hkeys.
    destruct (print_results_loop_lines config []) as (lines & Hrun & Hlines).
    + eapply Forall_impl; [exact Hkeys|]. intros kv. apply result_keys.
    + by exists lines.
  - intros k Hk Hin.
    destruct (print_results_loop_KeyError config [] k Hin)
      as (lines & k' & Hrun & Hk' & Hin').
    + rewrite result_keys in Hk. by apply eq_None_not_Some.
    + exists lines, k'. repeat split; [done| |done].
      rewrite result_keys, Hk'. by intros [? ?].
Qed.

Lemma print_results_lines_witness :
  (∃ lines,
     print_results [("0", 1); ("1", 0); ("5", 1)] = (lines, None)
     ∧ Forall2 (λ line kv, result !! kv.1 = Some line)
         lines (filter (λ kv, kv.2 = 1) [("0", 1); ("1", 0); ("5", 1)]))
  ∧ (∃ lines k',
       print_results [("0", 1); ("9", 1); ("1", 1)] = (lines, Some (KeyError k'))
       ∧ (k' ∉ ["0"; "1"; "2"; "3"; "4"; "5"])
       ∧ (k', 1) ∈ [("0", 1); ("9", 1); ("1", 1)]).
Proof.
  split.
  - refine (proj1 (print_results_lines [("0", 1); ("1", 0); ("5", 1)]) _).
    apply (bool_decide_unpack _). vm_compute. exact I.
  - refine (proj2 (print_results_lines [("0", 1); ("9", 1); ("1", 1)]) "9" _ _).
    + apply (bool_decide_unpack _). vm_compute. exact I.
    + apply (bool_decide_unpack _). vm_compute. exact I.
Defined.

Example print_results_run :
  print_results [("0", 1); ("1", 0); ("2", 0); ("3", 1); ("4", 1); ("5", 0)] =
    ( [ "Vincent buys Tess a gift and writes her a poem.";
        "Tess buys Uma a gift and writes her a poem.";
        "Uma buys Vincent a gift and writes him a poem." ], None ).
Proof. vm_compute. reflexivity. Qed.

Example print_results_unknown_key :
  print_results [("0", 1); ("9", 1); ("1", 1)] =
    ( [ "Vincent buys Tess a gift and writes her a poem." ],
      Some (KeyError "9") ).
Proof. vm_compute. reflexivity. Qed.

(** ** Assignments that break the constraints *)

Lemma configuration_six (x0 x1 x2 x3 x4 x5 : Z) :
  configuration [x0; x1; x2; x3; x4; x5] =
    [("0", x0); ("1", x1); ("2", x2); ("3", x3); ("4", x4); ("5", x5)].
Proof. reflexivity. Qed.

(** Over binary assignments of the six variables, one gift given and one
    received per person is the conjunction of exclusive-ors. *)
Lemma one_hot_xor (a : Assignment) :
  length a = 6%nat → binary a → one_hot_constraints a ↔ xor_constraints a.
Proof.
  intros Hlen Ha.
  destruct a as [|x0 [|x1 [|x2 [|x3 [|x4 [|x5 [|]]]]]]]; try discriminate.
  unfold binary in Ha. rewrite !Forall_cons in Ha.
  destruct Ha as ([-> | ->] & [-> | ->] & [-> | ->] &
                  [-> | ->] & [-> | ->] & [-> | ->] & _);
    (split;
     [ intros H; pose proof (H Vincent) as HV; pose proof (H Tess) as HT;
       pose proof (H Uma) as HU; clear H; vm_compute in HV, HT, HU;
       vm_compute; intuition congruence
     | intros H p; vm_compute in H; destruct p; vm_compute;
       intuition congruence ]).
Qed.

(** Two givers, Vincent and Tess, both buy for Uma; [print_results] prints
    both lines and returns without an exception. *)
Lemma print_results_same_receiver :
  ¬ one_hot_constraints [0; 1; 0; 1; 0; 0]
  ∧ gifts_received [0; 1; 0; 1; 0; 0] Uma = 2%nat
  ∧ print_results (configuration [0; 1; 0; 1; 0; 0]) =
      ( [ "Vincent buys Uma a gift and writes her a poem.";
          "Tess buys Uma a gift and writes her a poem." ], None )
  ∧ (print_results (configuration [0; 1; 0; 1; 0; 0])).2
      ≠ Some InconsistentSolutionError.
Proof.
  split; [|split; [|split]].
  - intros H. destruct (H Uma) as [_ HU]. vm_compute in HU. discriminate.
  - vm_compute. reflexivity.
  - vm_compute. reflexivity.
  - vm_compute. discriminate.
Qed.

(** C5 (amended): for an assignment of the six variables that
    breaks the one-hot constraints, [print_results] raises nothing; it
    returns normally, having printed the line of every variable set to 1. *)
Theorem print_results_unchecked (a : Assignment) :
  length a = 6%nat → ¬ one_hot_constraints a →
  ∃ lines,
    print_results (configuration a) = (lines, None)
    ∧ Forall2 (λ line kv, result !! kv.1 = Some line)
        lines (filter (λ kv, kv.2 = 1) (configuration a)).
Proof.
  intros Hlen _.
  destruct a as [|x0 [|x1 [|x2 [|x3 [|x4 [|x5 [|]]]]]]]; try discriminate.
  rewrite configuration_six.
  destruct (print_results_loop_lines
              [("0", x0); ("1", x1); ("2", x2); ("3", x3); ("4", x4); ("5", x5)] [])
    as (lines & Hrun & Hlines).
  - repeat constructor; apply result_keys; simpl;
      apply (bool_decide_unpack _); vm_compute; exact I.
  - by exists lines.
Qed.

Lemma print_results_unchecked_witness :
  ∃ lines,
    print_results (configuration [0; 1; 0; 1; 0; 0]) = (lines, None)
    ∧ Forall2 (λ line kv, result !! kv.1 = Some line)
        lines (filter (λ kv, kv.2 = 1) (configuration [0; 1; 0; 1; 0; 0])).
Proof.
  refine (print_results_unchecked [0; 1; 0; 1; 0; 0] _ _).
  - reflexivity.
  - intros H. destruct (H Uma) as [_ HU]. vm_compute in HU. discriminate.
Defined.

(** ** The local solver *)

(** For three people the modelled builder yields the notebook's terms, and
    its variable map is the notebook's matrix. *)
Lemma build_problem_three :
  build_problem 3 = inr (terms, variable_map 3)
  ∧ variable_map 3 =
      [ (0, (0, 1)%nat); (1, (0, 2)%nat); (2, (1, 0)%nat);
        (3, (1, 2)%nat); (4, (2, 0)%nat); (5, (2, 1)%nat) ].
Proof. split; vm_compute; reflexivity. Qed.

Lemma one_hot_terms_pair (i j : Z) : one_hot_terms [i; j] = build_terms i j.
Proof. reflexivity. Qed.

Lemma objective_cons (t : Term) (ts : list Term) (a : Assignment) :
  objective (t :: ts) a = monomial a t + objective ts a.
Proof. reflexivity. Qed.

Lemma objective_fmap (a : Assignment) (f : Z → Term) (g : Z → Z) (vs : list Z) :
  (∀ v, monomial a (f v) = g v) →
  objective (f <$> vs) a = foldr (λ v s, g v + s) 0 vs.
Proof.
  intros Hfg. induction vs as [|v vs IH]; [done|].
  rewrite fmap_cons, objective_cons, IH, Hfg. reflexivity.
Qed.

Lemma foldr_scale (k : Z) (g : Z → Z) (vs : list Z) :
  foldr (λ v s, k * g v + s) 0 vs = k * foldr (λ v s, g v + s) 0 vs.
Proof. induction vs as [|v vs IH]; simpl; [lia|]. rewrite IH. ring. Qed.

Lemma objective_cross_terms (a : Assignment) (vs : list Z) :
  foldr (λ v s, x_ a v * x_ a v + s) 0 vs + objective (cross_terms vs) a =
    foldr (λ v s, x_ a v + s) 0 vs ^ 2.
Proof.
  induction vs as [|v vs IH]; [done|].
  cbn [foldr cross_terms]. rewrite objective_app.
  rewrite (objective_fmap a _ (λ w, 2 * x_ a v * x_ a w))
    by (intros w; unfold monomial; simpl; ring).
  rewrite foldr_scale. nia.
Qed.

(** The terms of a group of any width sum to [(sum_k x_k - 1)^2]. *)
Lemma objective_one_hot_terms (a : Assignment) (vs : list Z) :
  objective (one_hot_terms vs) a = (foldr (λ v s, x_ a v + s) 0 vs - 1) ^ 2.
Proof.
  unfold one_hot_terms. rewrite !objective_app.
  rewrite (objective_fmap a _ (λ v, x_ a v * x_ a v))
    by (intros v; unfold monomial; simpl; ring).
  rewrite (objective_fmap a _ (λ v, -2 * x_ a v))
    by (intros v; unfold monomial; simpl; ring).
  rewrite foldr_scale.
  pose proof (objective_cross_terms a vs) as Hcross.
  change (objective [mkTerm 1 []] a) with (1 * 1 + 0). nia.
Qed.

Example solve_three :
  solve (constant_optimizer [1; 0; 0; 1; 1; 0]) 3 ["Vincent"; "Tess"; "Uma"]
        (mkConfig 10000 1 5 42) =
    ( [mkProgress 0 0],
      inr (mkSolution [1; 0; 0; 1; 1; 0] 0
             [ "Vincent buys Tess a gift."; "Tess buys Uma a gift.";
               "Uma buys Vincent a gift." ]) ).
Proof. vm_compute. reflexivity. Qed.

Example solve_three_inconsistent :
  solve (constant_optimizer [0; 1; 0; 1; 0; 0]) 3 ["Vincent"; "Tess"; "Uma"]
        (mkConfig 10000 1 5 42) =
    ([mkProgress 0 4], inl InconsistentSolutionError).
Proof. vm_compute. reflexivity. Qed.

(** C7: for fewer than three people [build_problem] and [solve] both fail
    with [InvalidConfigurationError], and [solve] does so with nothing
    reported by the optimizer, whatever the optimizer is. *)
Theorem small_group_rejected
    (optimizer : list Term → nat → Config → list Progress * (Assignment * Z))
    (num_people : Z) (names : list string) (config : Config) :
  num_people < 3 →
  build_problem num_people = inl InvalidConfigurationError
  ∧ solve optimizer num_people names config = ([], inl InvalidConfigurationError).
Proof.
  intros Hsmall. unfold solve, build_problem.
  rewrite !decide_True by auto. done.
Qed.

Lemma small_group_rejected_witness :
  build_problem 2 = inl InvalidConfigurationError
  ∧ solve (constant_optimizer [1; 1]) 2 ["Vincent"; "Tess"] (mkConfig 10000 1 5 42)
    = ([], inl InvalidConfigurationError).
Proof.
  refine (small_group_rejected (constant_optimizer [1; 1]) 2
            ["Vincent"; "Tess"] (mkConfig 10000 1 5 42) _).
  reflexivity.
Defined.

(** * Further properties of the notebook's code *)

(** ** How [print_results] runs *)

(** What was printed before the call stays in front of what the call
    prints. *)
Lemma print_results_loop_out (items : list (string * Z)) (out : list string) :
  print_results_loop items out =
    (out ++ (print_results items).1, (print_results items).2).
Proof.
  unfold print_results. revert out.
  induction items as [|[key val] items IH]; intros out; simpl.
  - by rewrite app_nil_r.
  - case_decide; [|apply IH].
    destruct (result !! key) as [line|]; simpl.
    + rewrite (IH (out ++ [line])), (IH [line]). simpl.
      by rewrite <- app_assoc.
    + by rewrite app_nil_r.
Qed.

Lemma print_results_cons (key : string) (val : Z) (rest : list (string * Z)) :
  print_results ((key, val) :: rest) =
    if decide (val = 1) then
      match result !! key with
      | Some line => (line :: (print_results rest).1, (print_results rest).2)
      | None => ([], Some (KeyError key))
      end
    else print_results rest.
Proof.
  unfold print_results at 1. simpl. case_decide; [|done].
  destruct (result !! key) as [line|]; [|done].
  by rewrite print_results_loop_out.
Qed.

Lemma print_results_nil : print_results [] = ([], None).
Proof. reflexivity. Qed.

(** X1: [print_results] over two configurations one after the other: if the
    first raises, that is the outcome and the second is never looked at;
    otherwise the lines of the second follow those of the first and the
    outcome is that of the second. *)
Theorem print_results_app (config1 config2 : list (string * Z)) :
  print_results (config1 ++ config2) =
    match (print_results config1).2 with
    | Some e => print_results config1
    | None => ((print_results config1).1 ++ (print_results config2).1,
               (print_results config2).2)
    end.
Proof.
  induction config1 as [|[key val] config1 IH].
  - simpl. by destruct (print_results config2).
  - rewrite <- app_comm_cons, !print_results_cons.
    case_decide; [|exact IH].
    destruct (result !! key) as [line|]; [|done].
    rewrite IH. by destruct (print_results config1) as [lines1 [e1|]].
Qed.

(** X2: entries whose value is not 1 play no part, known key or not:
    dropping them from the configuration changes neither the lines printed
    nor the exception. *)
Theorem print_results_filter (config : list (string * Z)) :
  print_results (filter (λ kv, kv.2 = 1) config) = print_results config.
Proof.
  induction config as [|[key val] config IH]; [done|].
  rewrite filter_cons. simpl. case_decide as Hval.
  - rewrite !print_results_cons, !decide_True by done. by rewrite IH.
  - rewrite IH, (print_results_cons key val), decide_False by done. done.
Qed.

Lemma print_results_ok (config : list (string * Z)) :
  (print_results config).2 = None ↔
  ∀ k, (k, 1) ∈ config → is_Some (result !! k).
Proof.
  induction config as [|[key val] config IH].
  - split; [|done]. intros _ k Hk. by apply elem_of_nil in Hk.
  - rewrite print_results_cons. case_decide as Hval.
    + subst val. destruct (result !! key) as [line|] eqn:Hkey; simpl.
      * rewrite IH. split.
        -- intros H k Hk. apply elem_of_cons in Hk as [[= ->]|Hk].
           ++ by rewrite Hkey.
           ++ by apply H.
        -- intros H k Hk. apply H. by right.
      * split; [done|]. intros H.
        destruct (H key) as [line Hline]; [by left|congruence].
    + rewrite IH. split.
      * intros H k Hk. apply elem_of_cons in Hk as [[= -> Hone]|Hk].
        -- by destruct Hval.
        -- by apply H.
      * intros H k Hk. apply H. by right.
Qed.

(** X3: [print_results] returns without an exception exactly when every key
    that carries the value 1 is a key of its table; keys carrying other
    values may be anything. *)
Theorem print_results_returns (config : list (string * Z)) :
  (print_results config).2 = None ↔
  ∀ k, (k, 1) ∈ config → k ∈ ["0"; "1"; "2"; "3"; "4"; "5"].
Proof.
  rewrite print_results_ok.
  split; intros H k Hk; apply result_keys || apply <- result_keys; by apply H.
Qed.

Lemma print_results_returns_witness :
  (print_results [("0", 1); ("7", 0); ("5", 1)]).2 = None.
Proof.
  refine (proj2 (print_results_returns [("0", 1); ("7", 0); ("5", 1)]) _).
  intros k Hk.
  repeat (apply elem_of_cons in Hk as [Heq|Hk]; [inversion Heq; set_solver|]).
  by apply elem_of_nil in Hk.
Defined.

(** X4: when [print_results] raises, the configuration splits at an entry
    [(k, 1)] whose key the table lacks; the exception is [KeyError k], and
    what was printed is exactly what [print_results] prints, without an
    exception, for the entries before it.  Nothing after that entry is
    read. *)
Theorem print_results_raises (config : list (string * Z))
    (lines : list string) (e : exn) :
  print_results config = (lines, Some e) →
  ∃ before k after,
    config = before ++ (k, 1) :: after
    ∧ e = KeyError k ∧ result !! k = None
    ∧ print_results before = (lines, None).
Proof.
  revert lines. induction config as [|[key val] config IH]; intros lines.
  - done.
  - rewrite print_results_cons. case_decide as Hval.
    + subst val. destruct (result !! key) as [line|] eqn:Hkey.
      * destruct (print_results config) as [lines' e'] eqn:Hrun. simpl.
        intros [= <- ->].
        destruct (IH lines' eq_refl) as (before & k & after & -> & -> & Hk & Hb).
        exists ((key, 1) :: before), k, after. repeat split; [done|].
        rewrite print_results_cons, decide_True, Hkey, Hb by done. done.
      * intros [= <- <-]. exists [], key, config. by repeat split.
    + intros Hrun.
      destruct (IH lines Hrun) as (before & k & after & -> & -> & Hk & Hb).
      exists ((key, val) :: before), k, after. repeat split; [done|].
      by rewrite print_results_cons, decide_False.
Qed.

Lemma print_results_raises_witness :
  ∃ before k after,
    [("0", 1); ("9", 1); ("1", 1)] = before ++ (k, 1) :: after
    ∧ KeyError "9" = KeyError k ∧ result !! k = None
    ∧ print_results before =
        (["Vincent buys Tess a gift and writes her a poem."], None).
Proof.
  refine (print_results_raises [("0", 1); ("9", 1); ("1", 1)]
            ["Vincent buys Tess a gift and writes her a poem."]
            (KeyError "9") _).
  vm_compute. reflexivity.
Defined.

(** X5: whatever the configuration, and whether or not an exception
    follows, every line printed is the table's line for a key that carries
    the value 1, and there are at most as many lines as such entries. *)
Theorem print_results_only_table (config : list (string * Z)) :
  Forall (λ line, ∃ k, (k, 1) ∈ config ∧ result !! k = Some line)
    (print_results config).1
  ∧ (length (print_results config).1
     ≤ length (filter (λ kv : string * Z, kv.2 = 1%Z) config))%nat.
Proof.
  induction config as [|[key val] config [IHl IHn]].
  - split; [constructor|done].
  - rewrite print_results_cons, filter_cons. simpl. case_decide as Hval.
    + subst val. destruct (result !! key) as [line|] eqn:Hkey; simpl.
      * split; [|lia]. constructor.
        -- exists key. split; [by left|done].
        -- eapply Forall_impl; [exact IHl|]. intros l (k & Hk & Hl).
           exists k. split; [by right|done].
      * split; [constructor|lia].
    + split; [|done].
      eapply Forall_impl; [exact IHl|]. intros l (k & Hk & Hl).
      exists k. split; [by right|done].
Qed.

(** ** Printing an assignment *)

Lemma configuration_entry (a : Assignment) (k : string) (x : Z) :
  (k, x) ∈ configuration a ↔ ∃ v : nat, k = pretty v ∧ a !! v = Some x.
Proof.
  unfold configuration. rewrite list_elem_of_lookup. split.
  - intros [v Hv]. exists v. rewrite list_lookup_imap in Hv.
    destruct (a !! v) as [y|]; simpl in Hv; [|done].
    by injection Hv as -> ->.
  - intros (v & -> & Hv). exists v. by rewrite list_lookup_imap, Hv.
Qed.

Lemma result_pretty (v : nat) : is_Some (result !! pretty v) ↔ (v < 6)%nat.
Proof.
  rewrite <- result_keys. split.
  - intros Hv.
    apply elem_of_cons in Hv as [Hv|Hv]; [rewrite (inj pretty v 0%nat Hv); lia|].
    apply elem_of_cons in Hv as [Hv|Hv]; [rewrite (inj pretty v 1%nat Hv); lia|].
    apply elem_of_cons in Hv as [Hv|Hv]; [rewrite (inj pretty v 2%nat Hv); lia|].
    apply elem_of_cons in Hv as [Hv|Hv]; [rewrite (inj pretty v 3%nat Hv); lia|].
    apply elem_of_cons in Hv as [Hv|Hv]; [rewrite (inj pretty v 4%nat Hv); lia|].
    apply elem_of_cons in Hv as [Hv|Hv]; [rewrite (inj pretty v 5%nat Hv); lia|].
    by apply elem_of_nil in Hv.
  - intros Hv.
    destruct v as [|[|[|[|[|[|v]]]]]]; [set_solver..|lia].
Qed.

(** X6: for the configuration of an assignment, variable [v] under the key
    [str(v)], [print_results] returns without an exception exactly when no
    variable beyond the six of the table is set to 1; the length of the
    assignment and its other values do not matter. *)
Theorem print_results_six_variables (a : Assignment) :
  (print_results (configuration a)).2 = None ↔
  ∀ v : nat, a !! v = Some 1 → (v < 6)%nat.
Proof.
  rewrite print_results_ok. split.
  - intros H v Hv. apply result_pretty, H, configuration_entry. by exists v.
  - intros H k Hk. apply configuration_entry in Hk as (v & -> & Hv).
    apply result_pretty. by apply H.
Qed.

Lemma print_results_six_variables_witness :
  (print_results (configuration [0; 1; 1; 0; 0; 1; 0; 2])).2 = None.
Proof.
  refine (proj2 (print_results_six_variables [0; 1; 1; 0; 0; 1; 0; 2]) _).
  intros v Hv.
  destruct v as [|[|[|[|[|[|[|[|v]]]]]]]]; simpl in Hv; try lia; discriminate.
Defined.

(** ** Zero-cost assignments of the three-person problem *)

Lemma zero_cost_cases (a : Assignment) :
  length a = 6%nat → binary a → evaluate terms a = Some 0 →
  a = [1; 0; 0; 1; 1; 0] ∨ a = [0; 1; 1; 0; 0; 1].
Proof.
  intros Hlen Ha Hzero. apply evaluate_Some in Hzero.
  symmetry in Hzero. apply objective_terms_zero in Hzero.
  destruct a as [|x0 [|x1 [|x2 [|x3 [|x4 [|x5 [|]]]]]]]; try discriminate.
  change (x0 + x1 = 1 ∧ x2 + x3 = 1 ∧ x4 + x5 = 1 ∧
          x2 + x4 = 1 ∧ x0 + x5 = 1 ∧ x1 + x3 = 1) in Hzero.
  unfold binary in Ha. rewrite !Forall_cons in Ha.
  destruct Ha as ([-> | ->] & _); [right|left];
    repeat f_equal; lia.
Qed.

(** X7: among the binary assignments of the six variables exactly two have
    cost 0 under [terms]: Vincent to Tess to Uma to Vincent, and the same
    cycle run the other way. *)
Theorem zero_cost_two_cycles (a : Assignment) :
  length a = 6%nat → binary a →
  (evaluate terms a = Some 0 ↔
   a = [1; 0; 0; 1; 1; 0] ∨ a = [0; 1; 1; 0; 0; 1]).
Proof.
  intros Hlen Ha. split; [by apply zero_cost_cases|].
  intros [-> | ->]; vm_compute; reflexivity.
Qed.

Lemma zero_cost_two_cycles_witness :
  evaluate terms [0; 1; 1; 0; 0; 1] = Some 0 ↔
  [0; 1; 1; 0; 0; 1] = [1; 0; 0; 1; 1; 0] ∨ [0; 1; 1; 0; 0; 1] = [0; 1; 1; 0; 0; 1].
Proof.
  refine (zero_cost_two_cycles [0; 1; 1; 0; 0; 1] _ _).
  - reflexivity.
  - unfold binary. repeat constructor; lia.
Defined.

(** X8: for a binary assignment of cost 0 [print_results] prints exactly
    three lines and raises nothing, and in what it prints every person buys
    once and is bought for once: it is one of the two gift cycles. *)
Theorem zero_cost_printed (a : Assignment) :
  length a = 6%nat → binary a → evaluate terms a = Some 0 →
  one_hot_constraints a
  ∧ (print_results (configuration a) =
       ( [ "Vincent buys Tess a gift and writes her a poem.";
           "Tess buys Uma a gift and writes her a poem.";
           "Uma buys Vincent a gift and writes him a poem." ], None )
     ∨ print_results (configuration a) =
       ( [ "Vincent buys Uma a gift and writes her a poem.";
           "Tess buys Vincent a gift and writes him a poem.";
           "Uma buys Tess a gift and writes her a poem." ], None )).
Proof.
  intros Hlen Ha Hzero.
  destruct (zero_cost_cases a Hlen Ha Hzero) as [-> | ->]; split;
    try (intros []; vm_compute; split; reflexivity).
  - left. vm_compute. reflexivity.
  - right. vm_compute. reflexivity.
Qed.

Lemma zero_cost_printed_witness :
  one_hot_constraints [1; 0; 0; 1; 1; 0]
  ∧ (print_results (configuration [1; 0; 0; 1; 1; 0]) =
       ( [ "Vincent buys Tess a gift and writes her a poem.";
           "Tess buys Uma a gift and writes her a poem.";
           "Uma buys Vincent a gift and writes him a poem." ], None )
     ∨ print_results (configuration [1; 0; 0; 1; 1; 0]) =
       ( [ "Vincent buys Uma a gift and writes her a poem.";
           "Tess buys Vincent a gift and writes him a poem.";
           "Uma buys Tess a gift and writes her a poem." ], None )).
Proof.
  refine (zero_cost_printed [1; 0; 0; 1; 1; 0] _ _ _).
  - reflexivity.
  - unfold binary. repeat constructor; lia.
  - vm_compute. reflexivity.
Defined.



(** ** Symmetries of the pair penalty *)

Lemma value_at_complement (a : Assignment) (i : Z) :
  value_at (complement a) i = (λ x, 1 - x) <$> value_at a i.
Proof.
  unfold value_at, complement. case_decide; [|done].
  apply list_lookup_fmap.
Qed.

Lemma x_complement (a : Assignment) (i : Z) :
  0 ≤ i < Z.of_nat (length a) → x_ (complement a) i = 1 - x_ a i.
Proof.
  intros Hi. unfold x_ at 1. rewrite value_at_complement.
  by rewrite (value_at_covered _ _ Hi).
Qed.

(** X10: flipping every bit of an assignment leaves the penalty of every
    pair unchanged, and with it the cost of an assignment of the six
    variables under [terms]. *)
Theorem complement_same_cost (a : Assignment) :
  (∀ i j, evaluate (build_terms i j) (complement a) =
          evaluate (build_terms i j) a)
  ∧ (length a = 6%nat → evaluate terms (complement a) = evaluate terms a).
Proof.
  split.
  - intros i j. unfold evaluate, build_terms. simpl.
    unfold contribution. simpl. rewrite !value_at_complement.
    destruct (value_at a i) as [xi|], (value_at a j) as [xj|]; simpl;
      try done.
    f_equal. ring.
  - intros Hlen.
    assert (length (complement a) = 6%nat) as Hlen'
      by (unfold complement; by rewrite length_fmap).
    rewrite (evaluate_terms _ Hlen), (evaluate_terms _ Hlen').
    rewrite !objective_terms, !x_complement by (rewrite Hlen; lia).
    f_equal. ring.
Qed.

Lemma complement_same_cost_witness :
  evaluate terms (complement [0; 1; 0; 1; 0; 0]) = evaluate terms [0; 1; 0; 1; 0; 0].
Proof.
  refine (proj2 (complement_same_cost [0; 1; 0; 1; 0; 0]) _). reflexivity.
Defined.

(** X11: the order of the two indices does not matter to the penalty:
    [build_terms j i] has the value of [build_terms i j] under every
    assignment, also where a variable has no value, although the two term
    lists are equal only if [i = j]. *)
Theorem build_terms_swap (i j : Z) :
  (∀ a : Assignment,
     evaluate (build_terms j i) a = evaluate (build_terms i j) a)
  ∧ (build_terms j i = build_terms i j ↔ i = j).
Proof.
  split.
  - intros a. unfold evaluate, build_terms. simpl.
    unfold contribution. simpl.
    destruct (value_at a i) as [xi|], (value_at a j) as [xj|]; simpl;
      try done.
    f_equal. ring.
  - split; [|by intros ->].
    unfold build_terms. simpl. by intros [= -> _].
Qed.

(** X12: called with the same index twice, [build_terms] yields a penalty
    that is 1 whatever the bit: such a pair can never be satisfied. *)
Theorem build_terms_same_index (i : Z) (a : Assignment) (x : Z) :
  value_at a i = Some x → x = 0 ∨ x = 1 →
  evaluate (build_terms i i) a = Some 1.
Proof.
  intros Hi Hx. rewrite (evaluate_build_terms _ _ _ _ _ Hi Hi).
  by destruct Hx as [-> | ->].
Qed.

Lemma build_terms_same_index_witness :
  evaluate (build_terms 1 1) [0; 1] = Some 1.
Proof.
  refine (build_terms_same_index 1 [0; 1] 1 _ _); [reflexivity|by right].
Defined.

(** ** The display cell *)

Lemma print_results_exn_key (config : list (string * Z)) (e : exn) :
  (print_results config).2 = Some e →
  ∃ k, e = KeyError k ∧ (k, 1) ∈ config ∧ result !! k = None.
Proof.
  induction config as [|[key val] config IH]; [done|].
  rewrite print_results_cons. case_decide as Hval.
  - subst val. destruct (result !! key) as [line|] eqn:Hkey; simpl.
    + intros He. destruct (IH He) as (k & -> & Hk & Hnone).
      exists k. repeat split; [by right|done].
    + intros [= <-]. exists key. repeat split; [by left|done].
  - intros He. destruct (IH He) as (k & -> & Hk & Hnone).
    exists k. repeat split; [by right|done].
Qed.

(** X13: the display cell always prints its heading first, before anything
    can go wrong.  The only exception it can end in is a [KeyError]: for
    ['configuration'] when the solver's result has no such entry, and then
    the heading is all that was printed, or for a key of the configuration
    that carries the value 1 and is missing from the table. *)
Theorem display_heading (solver_result : gmap string (list (string * Z))) :
  ∃ lines,
    (display solver_result).1 = "Human-readable solution:" :: lines
    ∧ ∀ e, (display solver_result).2 = Some e →
        (solver_result !! "configuration" = None
         ∧ e = KeyError "configuration" ∧ lines = [])
        ∨ (∃ config k,
             solver_result !! "configuration" = Some config
             ∧ e = KeyError k ∧ (k, 1) ∈ config ∧ result !! k = None).
Proof.
  unfold display.
  destruct (solver_result !! "configuration") as [config|].
  - destruct (print_results config) as [lines e'] eqn:Hrun.
    exists lines. split; [done|]. simpl. intros e ->. right.
    destruct (print_results_exn_key config e) as (k & -> & Hk & Hnone).
    + by rewrite Hrun.
    + by exists config, k.
  - exists []. split; [done|]. simpl. intros e [= <-]. by left.
Qed.

Lemma display_heading_witness :
  ∃ lines,
    (display {["configuration" := [("0", 1); ("9", 1)]]}).1 =
      "Human-readable solution:" :: lines
    ∧ ∀ e, (display {["configuration" := [("0", 1); ("9", 1)]]}).2 = Some e →
        (({["configuration" := [("0", 1); ("9", 1)]]}
            : gmap string (list (string * Z))) !! "configuration" = None
         ∧ e = KeyError "configuration" ∧ lines = [])
        ∨ (∃ config k,
             ({["configuration" := [("0", 1); ("9", 1)]]}
                : gmap string (list (string * Z))) !! "configuration" = Some config
             ∧ e = KeyError k ∧ (k, 1) ∈ config ∧ result !! k = None).
Proof.
  exact (display_heading {["configuration" := [("0", 1); ("9", 1)]]}).
Defined.

Example display_run :
  display {["configuration" :=
              [("0", 0); ("1", 1); ("2", 1); ("3", 0); ("4", 0); ("5", 1)]]} =
    ( [ "Human-readable solution:";
        "Vincent buys Uma a gift and writes her a poem.";
        "Tess buys Vincent a gift and writes him a poem.";
        "Uma buys Tess a gift and writes her a poem." ], None ).
Proof. vm_compute. reflexivity. Qed.

Example display_no_configuration :
  display {["cost" := []]} =
    (["Human-readable solution:"], Some (KeyError "configuration")).
Proof. vm_compute. reflexivity. Qed.
